(** * riddl-js: the Provider / connect state container over React.Context

    A shallow embedding of [src/lib/index.js].  The library is fifty lines of
    JavaScript on top of React: a class component [Provider] that keeps the
    global state in [this.state] and publishes it, with [this.setState] bound
    to the instance, through a context; and a higher-order function [connect]
    that reads the context and spreads state, bound transmitters and own props
    into the wrapped component.

    Layout of the development:
    - JavaScript values, property enumeration, [Object.assign];
    - the effect monad (a world holding the Provider instance and a log of the
      application functions invoked; exceptions);
    - the part of React the library calls: [Component.prototype.setState], the
      processing of the update queue, [createContext] / [Consumer];
    - the library itself: [_mapTransmittersToProps], [connect], [Provider];
    - the properties. *)

From stdpp Require Import gmap strings list fin_maps pretty.

Set Warnings "-register-all".

(** ** JavaScript values

    Objects are finite maps from property names to values: only own,
    enumerable, string-keyed properties are tracked, which is what [for..in]
    over a plain object, [Object.assign] and the JSX spread look at.  Arrays
    are objects whose keys are the decimal indices.  Numbers are restricted to
    integers.  Function values are closures in defunctionalised form: a
    function written by the application is a code index into the application's
    function table together with its captured variables, and the two closures
    the library itself creates are constructors of their own. *)
Inductive value :=
| VUndefined
| VNull
| VBool (b : bool)
| VNum (n : Z)
| VStr (s : string)
| VObj (o : gmap string value)
| VUser (u : nat) (env : list value)
    (* a function authored by the application (selector, transmitter,
       component, updater, callback): its code, as an index into the
       application's function table, and the values it closes over *)
| VSetState
    (* [this.setState.bind(this)], index.js line 40 *)
| VBound (transmitters : value) (func : string) (setGlobalState : value).
    (* [(...args) => transmitters[func].apply(null, args)(setGlobalState)],
       index.js line 16, with the three variables it closes over *)

(** The body of an application function: it returns, throws, or calls some
    function value and continues with the result. *)
Inductive prog :=
| Return (v : value)
| Throw (v : value)
| Invoke (f : value) (args : list value) (k : value → prog).

Module JS.

(** [typeof v === 'function'] *)
Definition is_function (v : value) : bool :=
  match v with
  | VUser _ _ | VSetState | VBound _ _ _ => true
  | _ => false
  end.

Definition typeof (v : value) : string :=
  match v with
  | VUndefined => "undefined"
  | VNull => "object"
  | VBool _ => "boolean"
  | VNum _ => "number"
  | VStr _ => "string"
  | VObj _ => "object"
  | VUser _ _ | VSetState | VBound _ _ _ => "function"
  end.

(** [v == null] *)
Definition nullish (v : value) : bool :=
  match v with
  | VUndefined | VNull => true
  | _ => false
  end.

(** ToBoolean, as used by the conditional operator. *)
Definition truthy (v : value) : bool :=
  match v with
  | VUndefined | VNull => false
  | VBool b => b
  | VNum n => negb (n =? 0)%Z
  | VStr s => negb (String.eqb s "")
  | _ => true
  end.

(** The characters of a string primitive are its own enumerable properties,
    under the keys "0", "1", ... *)
Definition string_props (s : string) : gmap string value :=
  list_to_map
    (imap (λ (i : nat) (c : Ascii.ascii), (pretty i, VStr (String c EmptyString)))
          (String.list_ascii_of_string s)).

(** Own enumerable string-keyed properties of a value (of [ToObject v] for a
    primitive); [undefined] and [null] have none for the purposes of
    [for..in] and of [Object.assign] sources. *)
Definition own_props (v : value) : gmap string value :=
  match v with
  | VObj o => o
  | VStr s => string_props s
  | _ => ∅
  end.

(** The [i]-th actual argument; a missing argument reads as [undefined]. *)
Definition arg (i : nat) (args : list value) : value :=
  default VUndefined (args !! i).

(** The array [[x0, x1, ...]]. *)
Definition array (xs : list value) : value :=
  VObj (list_to_map (imap (λ (i : nat) (x : value), (pretty i, x)) xs)).

(** A parameter with a default value, [(p = d) => ...]: the default is taken
    when the argument is [undefined], and only then. *)
Definition default_param (p d : value) : value :=
  match p with
  | VUndefined => d
  | _ => p
  end.

End JS.

Module Object.

(** [Object.assign(target, ...sources)]: the own enumerable properties of
    each source are copied onto the target, in order, so that a later
    source overrides an earlier one.  The JSX attribute list
    [<C a={x} {...s1} {...s2} />] is [Object.assign({a: x}, s1, s2)]. *)
Definition assign (target : gmap string value) (sources : list value)
  : gmap string value :=
  foldl (λ acc src, JS.own_props src ∪ acc) target sources.

End Object.

(** ** Exceptions and the effect monad *)

Inductive error :=
| TypeError            (* raised by the JavaScript engine *)
| InvariantViolation   (* raised by React's argument checks *)
| Thrown (v : value).  (* raised by application code *)

(** The [name] of the error object; the name of a value thrown by the
    application is not tracked. *)
Definition error_name (e : error) : option string :=
  match e with
  | TypeError => Some "TypeError"
  | InvariantViolation => Some "Invariant Violation"
  | Thrown _ => None
  end.

Inductive outcome (A : Type) :=
| Ok (a : A)
| Fail (e : error)
| OutOfFuel.
Arguments Ok {A} a.
Arguments Fail {A} e.
Arguments OutOfFuel {A}.

(** An update waiting in the queue of the class instance. *)
Record update := Update { payload : value; callback : value }.

(** The Provider class instance: [this.props], [this.state], and the queue
    React keeps for it. *)
Record instance := Instance {
  props : gmap string value;
  state : value;
  updateQueue : list update
}.

(** The world: the one Provider instance of the application and the log of
    the function calls made so far (callee and arguments), oldest first. *)
Record world := World {
  this : instance;
  calls : list (value * list value)
}.

Definition M (A : Type) : Type := world → outcome A * world.

Definition ret {A} (a : A) : M A := λ w, (Ok a, w).

Definition bind {A B} (m : M A) (k : A → M B) : M B :=
  λ w, match m w with
       | (Ok a, w') => k a w'
       | (Fail e, w') => (Fail e, w')
       | (OutOfFuel, w') => (OutOfFuel, w')
       end.

Definition throw {A} (e : error) : M A := λ w, (Fail e, w).

Definition out_of_fuel {A} : M A := λ w, (OutOfFuel, w).

Definition log (f : value) (args : list value) : M unit :=
  λ w, (Ok tt, World (this w) (calls w ++ [(f, args)])).

Definition get_this : M instance := λ w, (Ok (this w), w).

Definition set_this (i : instance) : M unit :=
  λ w, (Ok tt, World i (calls w)).

Declare Scope js_scope.
Delimit Scope js_scope with js.
Notation "x <- m ;; k" := (bind m (λ x, k))
  (at level 100, m at next level, right associativity) : js_scope.
Notation "m ;;; k" := (bind m (λ _, k))
  (at level 100, right associativity) : js_scope.
Open Scope js_scope.

Module JSM.

(** Property read [v[k]] (also behind a destructuring pattern [{k}]): a
    [TypeError] on [undefined] and [null], [undefined] for a property the
    value does not have. *)
Definition get (v : value) (k : string) : M value :=
  if JS.nullish v then throw TypeError
  else ret (default VUndefined (JS.own_props v !! k)).

(** The keys a [for (let k in v)] loop visits. *)
Definition for_in (v : value) : list string :=
  (map_to_list (JS.own_props v)).*1.

(** [t.apply(null, args)].  For a function this is [Function.prototype.apply];
    an object may carry a property [apply] of its own, which is then called
    with the two arguments [null] and the array; anything else has no
    callable [apply]. *)
Definition method_apply (callee : value → list value → M value)
    (t : value) (args : list value) : M value :=
  if JS.is_function t then callee t args
  else match t with
       | VObj o =>
           match o !! "apply" with
           | Some g => callee g [VNull; JS.array args]
           | None => throw TypeError
           end
       | _ => throw TypeError
       end.

(** Running the body of an application function, given how to call. *)
Fixpoint exec (callee : value → list value → M value) (p : prog) : M value :=
  match p with
  | Return v => ret v
  | Throw v => throw (Thrown v)
  | Invoke f args k => r <- callee f args ;; exec callee (k r)
  end.

End JSM.

(** ** React, as far as the library uses it

    React is a dependency of the library, not part of it.  The definitions
    here and in the section on the update queue below follow React's class
    components: [Component.prototype.setState] with its argument check
    (ReactBaseClasses), and [getStateFromUpdate], [processUpdateQueue] and
    [commitUpdateQueue] (ReactUpdateQueue).  When the host works off the
    queue is left to the host: it is an event of its own, see [event]. *)
Module React.

(** [React.createElement(type, config)], kept as the pair it is built from:
    [config] is the attribute object as the caller wrote it.  What the
    component of the element is then called with is [received_props]. *)
Record element := Element { type : value; config : gmap string value }.

Definition createElement (type : value) (config : gmap string value) : element :=
  Element type config.

(** The names React keeps for itself: they are taken out of the config and
    never reach the component. *)
Definition RESERVED_PROPS : list string := ["key"; "ref"; "__self"; "__source"].

(** The props the component of an element is called with: the config without
    the reserved names.  (React also fills in the [defaultProps] of the
    component for the props that are [undefined]; function values carry no
    properties here, so there are none.) *)
Definition received_props (e : element) : gmap string value :=
  filter (λ kv, kv.1 ∉ RESERVED_PROPS) (config e).

(** Mounting a class component: after the constructor has run React adopts
    the instance, and a state the constructor left [undefined] (or [null]) is
    [null] from then on. *)
Definition mount (i : instance) : instance :=
  Instance (props i) (if JS.nullish (state i) then VNull else state i) (updateQueue i).

(** [React.createContext(defaultValue)] *)
Record context := Context { defaultValue : value }.

Definition createContext (defaultValue : value) : context :=
  Context defaultValue.

(** [<ctx.Consumer>{children}</ctx.Consumer>] evaluated at a position of the
    tree whose enclosing [ctx.Provider]s carry the values [ancestors],
    nearest first: the render function is called with the nearest value, or
    with the default value of the context when there is none. *)
Definition Consumer {A} (ctx : context) (ancestors : list value)
    (children : value → M A) : M A :=
  children (hd (defaultValue ctx) ancestors).

(** [Component.prototype.setState(partialState, callback)]: the argument
    check, then the update is appended to the queue of the instance.  Working
    the queue off is an event of the host, [Flush]: inside a batch (an event
    handler of React) it comes after the handler has returned; outside a
    batch (a timer, a promise callback) React works the queue off before
    [setState] returns, which is a [Flush] directly after the call.  The
    statements below that are about the state after an update are therefore
    about a call followed by the flush, and those about calls alone exclude
    calls of [setState]. *)
Definition setState (partialState callback : value) : M value :=
  if String.eqb (JS.typeof partialState) "object"
     || String.eqb (JS.typeof partialState) "function"
     || JS.nullish partialState
  then
    i <- get_this ;;
    set_this (Instance (props i) (state i)
                (updateQueue i ++
                 [Update partialState (if JS.nullish callback then VNull else callback)])) ;;;
    ret VUndefined
  else throw InvariantViolation.

End React.

(** ** The application's functions and the evaluation of calls *)
Section Application.

(** The function table of the application: the body of the function with
    code [u], given its captured variables and its arguments. *)
Variable body : nat → list value → list value → prog.

(** [f(...args)]: every call is logged; calling what is not a function is a
    [TypeError].  The fuel bounds the depth of nested calls. *)
Fixpoint call (fuel : nat) (f : value) (args : list value) {struct fuel} : M value :=
  match fuel with
  | O => out_of_fuel
  | S n =>
      match f with
      | VUser u env =>
          log f args ;;;
          JSM.exec (call n) (body u env args)
      | VSetState =>
          log f args ;;;
          React.setState (JS.arg 0 args) (JS.arg 1 args)
      | VBound transmitters func setGlobalState =>
          (* transmitters[func].apply(null, args)(setGlobalState) *)
          log f args ;;;
          t <- JSM.get transmitters func ;;
          r <- JSM.method_apply (call n) t args ;;
          call n r [setGlobalState]
      | _ => throw TypeError
      end
  end.

(** *** React: processing the update queue of the instance *)

(** One update applied to the state computed so far: an updater function is
    called with that state and the props; a [null] or [undefined] partial
    state changes nothing; anything else is merged, shallowly, into a fresh
    object. *)
Definition getStateFromUpdate (fuel : nat) (u : update) (prevState : value)
    (nextProps : gmap string value) : M value :=
  partialState <-
    (if JS.is_function (payload u)
     then call fuel (payload u) [prevState; VObj nextProps]
     else ret (payload u)) ;;
  if JS.nullish partialState then ret prevState
  else ret (VObj (Object.assign ∅ [prevState; partialState])).

Fixpoint processUpdateQueue (fuel : nat) (queue : list update) (prevState : value)
    (nextProps : gmap string value) : M value :=
  match queue with
  | [] => ret prevState
  | u :: rest =>
      s <- getStateFromUpdate fuel u prevState nextProps ;;
      processUpdateQueue fuel rest s nextProps
  end.

(** After the new state is in place, the callbacks of the processed updates
    run, in order. *)
Fixpoint commitUpdateQueue (fuel : nat) (queue : list update) : M unit :=
  match queue with
  | [] => ret tt
  | u :: rest =>
      match callback u with
      | VNull => ret tt
      | cb => if JS.is_function cb then call fuel cb [] ;;; ret tt
              else throw InvariantViolation
      end ;;;
      commitUpdateQueue fuel rest
  end.

(** The host works off the queue: the pending updates are taken, applied in
    the order they were enqueued, the result becomes [this.state], and the
    callbacks run.  (Between the two React renders the Provider and
    re-evaluates the consumers below it.) *)
Definition flush (fuel : nat) : M unit :=
  i <- get_this ;;
  set_this (Instance (props i) (state i) []) ;;;
  newState <- processUpdateQueue fuel (updateQueue i) (state i) (props i) ;;
  j <- get_this ;;
  set_this (Instance (props j) newState (updateQueue j)) ;;;
  commitUpdateQueue fuel (updateQueue i).

(** ** The library: src/lib/index.js *)

(** [const GlobalContext = React.createContext();] *)
Definition GlobalContext : React.context := React.createContext VUndefined.

(** Lines 13-19: one closure per enumerable key of [transmitters].  The keys
    are distinct, so the order in which the loop visits them does not show in
    [output]. *)
Definition _mapTransmittersToProps (transmitters setGlobalState : value)
  : gmap string value :=
  foldl (λ output func, <[func := VBound transmitters func setGlobalState]> output)
        ∅ (JSM.for_in transmitters).

(** Line 23:
    [mapStateToProps ? mapStateToProps(globalState) : globalState] *)
Definition mappedState (fuel : nat) (mapStateToProps globalState : value) : M value :=
  if JS.truthy mapStateToProps
  then call fuel mapStateToProps [globalState]
  else ret globalState.

(** Lines 12-31.  [connect(Component, mapStateToProps, transmitters)] is a
    function component; called with [props] at a position of the tree it
    yields a [GlobalContext.Consumer] whose render function builds the
    element for [Component]. *)
Definition connect (fuel : nat) (Component mapStateToProps transmitters : value)
    (props : gmap string value) (ancestors : list value) : M React.element :=
  let transmitters := JS.default_param transmitters (VObj ∅) in
  React.Consumer GlobalContext ancestors (λ ctx,
    globalState <- JSM.get ctx "globalState" ;;
    setGlobalState <- JSM.get ctx "setGlobalState" ;;
    mappedState <- mappedState fuel mapStateToProps globalState ;;
    let mappedTransmitters := _mapTransmittersToProps transmitters setGlobalState in
    ret (React.createElement Component
           (Object.assign {[ "setGlobalState" := setGlobalState ]}
              [mappedState; VObj mappedTransmitters; VObj props]))).

(** Lines 33-45: the Provider class. *)

(** [constructor(props) { super(props); this.state = props.globalState; }] *)
Definition Provider_constructor (props : gmap string value) : outcome instance :=
  Ok (Instance props (default VUndefined (props !! "globalState")) []).

(** [render()]: the value handed to [GlobalContext.Provider], and the
    children rendered below it. *)
Definition Provider_render (this : instance) : value * value :=
  (VObj {[ "globalState" := state this; "setGlobalState" := VSetState ]},
   default VUndefined (props this !! "children")).

(** ** The host's life cycle of the Provider *)

(** What can happen to a mounted Provider: its parent renders it again with
    other props; the host works off the update queue; some code of the
    application (an event handler, a timer or promise callback, a bound
    transmitter) runs. *)
Inductive event :=
| ReceiveProps (nextProps : gmap string value)
| Flush
| Run (f : value) (args : list value).

(** The class declares no life-cycle method besides the constructor and
    [render], so new props are stored in [this.props] and nothing else; the
    render that follows works off the queue. *)
Definition host_step (fuel : nat) (e : event) : M unit :=
  match e with
  | ReceiveProps nextProps =>
      i <- get_this ;;
      set_this (Instance nextProps (state i) (updateQueue i)) ;;;
      flush fuel
  | Flush => flush fuel
  | Run f args => call fuel f args ;;; ret tt
  end.

Fixpoint host_run (fuel : nat) (es : list event) : M unit :=
  match es with
  | [] => ret tt
  | e :: rest => host_step fuel e ;;; host_run fuel rest
  end.

(** The current Snapshot, as the consumers below the Provider see it: the
    [globalState] member of the value the Provider renders. *)
Definition snapshot (w : world) : value := state (this w).

End Application.

(** ** How a computation may change the world *)

(** [m] relates the world it starts in to the world it ends in by [R],
    whatever its outcome. *)
Definition respects (R : world → world → Prop) {A} (m : M A) : Prop :=
  ∀ w r w', m w = (r, w') → R w w'.

(** The log of calls only grows. *)
Definition extends (w w' : world) : Prop :=
  ∃ l, calls w' = calls w ++ l.

(** What running code can do to the Provider: nothing to [this.state] and
    [this.props]; updates are appended to the queue, and only by a logged
    call of the bound [setState]. *)
Definition evolves (w w' : world) : Prop :=
  state (this w') = state (this w) ∧
  props (this w') = props (this w) ∧
  ∃ l q, calls w' = calls w ++ l ∧
         updateQueue (this w') = updateQueue (this w) ++ q ∧
         (q ≠ [] → ∃ args, (VSetState, args) ∈ l).

(** ** A sample application

    A function table in the style of the README: the selector
    [state => state.portion] (code 0; reading a property of [undefined] or
    [null] throws, shown here as a thrown string), the updater
    [prev => Number.isInteger(prev.count) ? {count: prev.count + 1} : {}]
    (code 1; numbers are the integers, so the counts meant are those below
    2^53), and the two stages of a transmitter in the style of [coinflip]
    (codes 2 and 3), which calls [setGlobalState] twice, the second time with
    the guess.  Every other code is a function that returns [undefined]. *)
Module Sample.

Definition selector : nat := 0.
Definition updater : nat := 1.
Definition coinflip : nat := 2.
Definition coinflip_stage2 : nat := 3.
Definition Game : nat := 4.

Definition body (u : nat) (env args : list value) : prog :=
  match u with
  | 0 => match JS.arg 0 args with
         | VUndefined | VNull => Throw (VStr "TypeError")
         | st => Return (default VUndefined (JS.own_props st !! "portion"))
         end
  | 1 => match JS.arg 0 args with
         | VUndefined | VNull => Throw (VStr "TypeError")
         | st =>
             match JS.own_props st !! "count" with
             | Some (VNum n) => Return (VObj {[ "count" := VNum (n + 1) ]})
             | _ => Return (VObj ∅)
             end
         end
  | 2 => Return (VUser coinflip_stage2 [JS.arg 0 args])
  | 3 => Invoke (JS.arg 0 args) [VObj {[ "result" := VStr "Flipping!!" ]}] (λ _,
         Invoke (JS.arg 0 args) [VObj {[ "result" := JS.arg 0 env ]}] (λ _,
         Return VUndefined))
  | _ => Return VUndefined
  end.

Definition globalState : gmap string value :=
  {[ "loggedIn" := VBool false;
     "count" := VNum 0;
     "portion" := VObj {[ "foo" := VStr "bar" ]} ]}.

Definition provider : instance :=
  Instance {[ "globalState" := VObj globalState ]} (VObj globalState) [].

Definition w0 : world := World provider [].

Definition transmitters : value := VObj {[ "coinflip" := VUser coinflip [] ]}.

End Sample.

(** * Properties *)

(** ** Maps: the spread and the [for..in] loop *)

(** In a union the left map wins. *)
Lemma lookup_union_match (m1 m2 : gmap string value) k :
  (m1 ∪ m2) !! k = match m1 !! k with Some v => Some v | None => m2 !! k end.
Proof. rewrite lookup_union. by destruct (m1 !! k), (m2 !! k). Qed.

Lemma lookup_fold_insert (g : string → value) (l : list string) :
  ∀ (m : gmap string value) k,
    foldl (λ output func, <[func := g func]> output) m l !! k =
    if decide (k ∈ l) then Some (g k) else m !! k.
Proof.
  induction l as [|x l IH]; intros m k; cbn [foldl].
  - rewrite decide_False; [done | by intros ?%elem_of_nil].
  - rewrite IH. destruct (decide (k ∈ l)) as [Hin|Hnin].
    + rewrite decide_True; [done | by right].
    + destruct (decide (k = x)) as [->|Hne].
      * rewrite decide_True by left. apply lookup_insert_eq.
      * rewrite decide_False; [by apply lookup_insert_ne|].
        intros [?|?]%elem_of_cons; done.
Qed.

Lemma elem_of_for_in v k : k ∈ JSM.for_in v ↔ is_Some (JS.own_props v !! k).
Proof.
  unfold JSM.for_in. rewrite list_elem_of_fmap. split.
  - intros [[k' x] [-> Hin]]. apply elem_of_map_to_list in Hin. by exists x.
  - intros [x Hx]. exists (k, x). split; [done|]. by apply elem_of_map_to_list.
Qed.

Lemma lookup_mapTransmittersToProps transmitters setGlobalState k :
  _mapTransmittersToProps transmitters setGlobalState !! k =
  match JS.own_props transmitters !! k with
  | Some _ => Some (VBound transmitters k setGlobalState)
  | None => None
  end.
Proof.
  unfold _mapTransmittersToProps. rewrite lookup_fold_insert.
  destruct (JS.own_props transmitters !! k) as [raw|] eqn:Hk.
  - rewrite decide_True; [done|]. apply elem_of_for_in. by rewrite Hk.
  - rewrite decide_False; [done|]. rewrite elem_of_for_in, Hk. by intros [? ?].
Qed.

(** ** The monad *)

(** Case analysis on a sequenced computation. *)
Lemma bind_inv {A B} (m : M A) (k : A → M B) w r w' :
  bind m k w = (r, w') →
  (∃ a w1, m w = (Ok a, w1) ∧ k a w1 = (r, w')) ∨
  (∃ e, m w = (Fail e, w') ∧ r = Fail e) ∨
  (m w = (OutOfFuel, w') ∧ r = OutOfFuel).
Proof.
  unfold bind. destruct (m w) as [[a|e|] w1]; intros H.
  - left. eauto.
  - right. left. inversion H. eauto.
  - right. right. by inversion H.
Qed.

Lemma get_own v k x : JS.own_props v !! k = Some x → JSM.get v k = ret x.
Proof.
  intros Hx. unfold JSM.get. destruct v; simpl in *; by rewrite ?Hx.
Qed.

Lemma method_apply_function callee t args :
  JS.is_function t = true → JSM.method_apply callee t args = callee t args.
Proof. unfold JSM.method_apply. by intros ->. Qed.

Section Respects.

(** A relation between the world before and the world after that is closed
    under doing nothing and under sequencing. *)
Context (R : world → world → Prop) `{!PreOrder R}.

Lemma respects_ret {A} (a : A) : respects R (ret a).
Proof. by intros w r w' [= _ <-]. Qed.

Lemma respects_throw {A} e : respects R (@throw A e).
Proof. by intros w r w' [= _ <-]. Qed.

Lemma respects_out_of_fuel {A} : respects R (@out_of_fuel A).
Proof. by intros w r w' [= _ <-]. Qed.

Lemma respects_get_this : respects R get_this.
Proof. by intros w r w' [= _ <-]. Qed.

Lemma respects_bind {A B} (m : M A) (k : A → M B) :
  respects R m → (∀ a, respects R (k a)) → respects R (bind m k).
Proof.
  intros Hm Hk w r w' H.
  apply bind_inv in H as [(a & w1 & H1 & H2)|[(e & H1 & _)|[H1 _]]].
  - transitivity w1; [eapply Hm, H1 | eapply Hk, H2].
  - eapply Hm, H1.
  - eapply Hm, H1.
Qed.

Lemma respects_get v k : respects R (JSM.get v k).
Proof.
  unfold JSM.get. destruct (JS.nullish v);
    [apply respects_throw | apply respects_ret].
Qed.

Lemma respects_exec callee p :
  (∀ f args, respects R (callee f args)) → respects R (JSM.exec callee p).
Proof.
  intros Hc. induction p as [v|v|f args k IH]; simpl.
  - apply respects_ret.
  - apply respects_throw.
  - apply respects_bind; auto.
Qed.

Lemma respects_method_apply callee t args :
  (∀ f xs, respects R (callee f xs)) → respects R (JSM.method_apply callee t args).
Proof.
  intros Hc. unfold JSM.method_apply.
  destruct (JS.is_function t); [apply Hc|].
  destruct t; try apply respects_throw.
  destruct (o !! "apply"); [apply Hc | apply respects_throw].
Qed.

End Respects.

(** Facts of the form [respects R m] about particular computations go into a
    hint database; [respects_solve] walks through a computation with the
    lemmas above and closes the leaves from the database. *)
Create HintDb respects.

Ltac respects_solve :=
  repeat first
    [ assumption
    | match goal with |- PreOrder _ => apply _ end
    | apply respects_ret
    | apply respects_throw
    | apply respects_out_of_fuel
    | apply respects_get_this
    | apply respects_get
    | match goal with |- ∀ _, _ => intros ? end
    | match goal with |- respects _ (if ?b then _ else _) => destruct b end
    | solve [auto with respects]
    | apply respects_bind
    | apply respects_exec
    | apply respects_method_apply ].

#[local] Instance extends_preorder : PreOrder extends.
Proof.
  split.
  - intros w. exists []. by rewrite app_nil_r.
  - intros w1 w2 w3 [l1 H1] [l2 H2]. exists (l1 ++ l2).
    by rewrite H2, H1, app_assoc.
Qed.

#[local] Instance evolves_preorder : PreOrder evolves.
Proof.
  split.
  - intros w. repeat split. exists [], []. by rewrite !app_nil_r.
  - intros w1 w2 w3 (Hs1 & Hp1 & l1 & q1 & Hl1 & Hq1 & Hj1)
                    (Hs2 & Hp2 & l2 & q2 & Hl2 & Hq2 & Hj2).
    split; [congruence|]. split; [congruence|].
    exists (l1 ++ l2), (q1 ++ q2).
    split; [by rewrite Hl2, Hl1, app_assoc|].
    split; [by rewrite Hq2, Hq1, app_assoc|].
    intros Hne. destruct q1 as [|u q1].
    + destruct Hj2 as [args Hargs]; [done|]. exists args. apply elem_of_app. by right.
    + destruct Hj1 as [args Hargs]; [done|]. exists args. apply elem_of_app. by left.
Qed.

Lemma evolves_extends w w' : evolves w w' → extends w w'.
Proof. intros (_ & _ & l & _ & Hl & _). by exists l. Qed.

Lemma log_extends f args : respects extends (log f args).
Proof. intros w r w' [= _ <-]. by eexists. Qed.

Lemma set_this_extends i : respects extends (set_this i).
Proof. intros w r w' [= _ <-]. exists []. simpl. by rewrite app_nil_r. Qed.

Lemma setState_extends partialState callback :
  respects extends (React.setState partialState callback).
Proof.
  intros w r w'. unfold React.setState, bind, get_this, set_this, ret, throw.
  destruct (_ || _); intros [= _ <-]; exists []; simpl; by rewrite app_nil_r.
Qed.

Lemma log_evolves f args : respects evolves (log f args).
Proof.
  intros w r w' [= _ <-]. repeat split. simpl.
  exists [(f, args)], []. by rewrite app_nil_r.
Qed.

(** The bound [setState], called and logged, is the one step that touches
    the queue. *)
Lemma logged_setState_evolves args :
  respects evolves
    (log VSetState args ;;; React.setState (JS.arg 0 args) (JS.arg 1 args)).
Proof.
  intros w r w'. unfold bind, log, React.setState, get_this, set_this, throw, ret.
  destruct (_ || _); intros [= _ <-]; simpl.
  - repeat split. eexists [_], [_]. repeat split; [done..|].
    intros _. exists args. by apply list_elem_of_singleton.
  - repeat split. eexists [_], []. by rewrite app_nil_r.
Qed.

#[local] Hint Resolve log_extends set_this_extends setState_extends log_evolves
  logged_setState_evolves : respects.

Section Application_facts.

Variable body : nat → list value → list value → prog.

(** *** Calls *)

Lemma call_evolves fuel : ∀ f args, respects evolves (call body fuel f args).
Proof.
  induction fuel as [|n IH]; intros f args; simpl; [respects_solve|].
  destruct f; respects_solve.
Qed.

Lemma call_extends fuel f args : respects extends (call body fuel f args).
Proof. intros w r w' H. eapply evolves_extends, call_evolves, H. Qed.

#[local] Hint Resolve call_extends : respects.

(** A call that got to run logged itself first. *)
Lemma call_logged n f args w r w' :
  JS.is_function f = true →
  call body (S n) f args w = (r, w') →
  ∃ l, calls w' = calls w ++ (f, args) :: l.
Proof.
  intros Hf H.
  assert (∃ m : M value, respects extends m ∧
            call body (S n) f args = (log f args ;;; m)) as (m & Hm & Heq).
  { destruct f; try discriminate; simpl; eexists; (split; [|reflexivity]);
      respects_solve. }
  rewrite Heq in H. unfold bind, log in H. simpl in H.
  destruct (m _) as [r1 w1] eqn:Hrun.
  apply Hm in Hrun as [l Hl]. simpl in Hl.
  exists l. assert (w' = w1) as -> by (destruct r1; by inversion H).
  by rewrite Hl, <- app_assoc.
Qed.

(** *** The update queue *)

Lemma getStateFromUpdate_extends fuel u prevState nextProps :
  respects extends (getStateFromUpdate body fuel u prevState nextProps).
Proof.
  unfold getStateFromUpdate. respects_solve.
Qed.

Lemma processUpdateQueue_extends fuel queue : ∀ prevState nextProps,
  respects extends (processUpdateQueue body fuel queue prevState nextProps).
Proof.
  induction queue as [|u rest IH]; intros prevState nextProps; simpl.
  - respects_solve.
  - pose proof getStateFromUpdate_extends. respects_solve.
Qed.

Lemma commitUpdateQueue_extends fuel queue :
  respects extends (commitUpdateQueue body fuel queue).
Proof.
  induction queue as [|u rest IH]; simpl; [respects_solve|].
  destruct (callback u); simpl; respects_solve.
Qed.

#[local] Hint Resolve processUpdateQueue_extends commitUpdateQueue_extends : respects.

Lemma flush_extends fuel : respects extends (flush body fuel).
Proof. unfold flush. respects_solve. Qed.

(** With nothing in the queue the host's pass over it changes nothing. *)
Lemma flush_empty_queue fuel w :
  updateQueue (this w) = [] → flush body fuel w = (Ok tt, w).
Proof.
  destruct w as [[ps s q] l]; simpl. intros ->. reflexivity.
Qed.

(** *** The host *)

Lemma host_step_extends fuel e : respects extends (host_step body fuel e).
Proof.
  pose proof (flush_extends fuel).
  destruct e as [nextProps| |f args]; simpl; respects_solve.
Qed.

Lemma host_run_extends fuel es : respects extends (host_run body fuel es).
Proof.
  pose proof (host_step_extends fuel).
  induction es as [|e rest IH]; simpl; respects_solve.
Qed.

(** As long as the bound [setState] is not called, a step of the host that
    finds the queue empty leaves [this.state] alone and the queue empty. *)
Lemma host_step_quiet fuel e w r w' l :
  host_step body fuel e w = (r, w') →
  updateQueue (this w) = [] →
  calls w' = calls w ++ l →
  (∀ args, (VSetState, args) ∉ l) →
  state (this w') = state (this w) ∧ updateQueue (this w') = [].
Proof.
  intros Hstep Hq Hlog Hquiet. destruct e as [nextProps| |f args]; simpl in Hstep.
  - change (flush body fuel
              (World (Instance nextProps (state (this w)) (updateQueue (this w)))
                     (calls w)) = (r, w')) in Hstep.
    rewrite flush_empty_queue in Hstep by done.
    by simplify_eq.
  - rewrite flush_empty_queue in Hstep by done. by simplify_eq.
  - assert (evolves w w') as (Hs & _ & l' & q & Hl & Hq' & Hj).
    { unfold bind in Hstep.
      destruct (call body fuel f args w) as [r1 w1] eqn:Hcall.
      assert (w' = w1) as -> by (destruct r1; by inversion Hstep).
      eapply call_evolves, Hcall. }
    assert (l' = l) as -> by (rewrite Hl in Hlog; by apply app_inv_head in Hlog).
    split; [done|]. rewrite Hq', Hq. simpl.
    destruct q as [|u q]; [done|]. destruct Hj as [args' Hin]; [done|].
    exfalso. by apply (Hquiet args').
Qed.

Lemma host_run_quiet fuel es : ∀ w r w' l,
  host_run body fuel es w = (r, w') →
  updateQueue (this w) = [] →
  calls w' = calls w ++ l →
  (∀ args, (VSetState, args) ∉ l) →
  state (this w') = state (this w).
Proof.
  induction es as [|e rest IH]; intros w r w' l Hrun Hq Hlog Hquiet; simpl in Hrun.
  - by inversion Hrun.
  - apply bind_inv in Hrun as [(a & w1 & H1 & H2)|[(err & H1 & _)|[H1 _]]].
    + destruct (host_step_extends _ _ _ _ _ H1) as [l1 Hl1].
      destruct (host_run_extends _ _ _ _ _ H2) as [l2 Hl2].
      assert (l = l1 ++ l2) as ->.
      { rewrite Hl2, Hl1, <- app_assoc in Hlog. by apply app_inv_head in Hlog. }
      assert (∀ args, (VSetState, args) ∉ l1) as Hquiet1.
      { intros args Hin. apply (Hquiet args), elem_of_app. by left. }
      assert (∀ args, (VSetState, args) ∉ l2) as Hquiet2.
      { intros args Hin. apply (Hquiet args), elem_of_app. by right. }
      destruct (host_step_quiet _ _ _ _ _ _ H1 Hq Hl1 Hquiet1) as [Hs Hq1].
      rewrite <- Hs. by eapply IH.
    + by destruct (host_step_quiet _ _ _ _ _ _ H1 Hq Hlog Hquiet).
    + by destruct (host_step_quiet _ _ _ _ _ _ H1 Hq Hlog Hquiet).
Qed.

(** *** Pending updates that are not functions *)

(** Payloads that are not functions are merged without a call: the state
    they lead to depends neither on the props nor on the world. *)
Lemma processUpdateQueue_plain fuel queue :
  Forall (λ u, JS.is_function (payload u) = false) queue →
  ∀ prevState, ∃ newState,
    ∀ nextProps w,
      processUpdateQueue body fuel queue prevState nextProps w = (Ok newState, w).
Proof.
  induction 1 as [|u rest Hu _ IH]; intros prevState.
  - by exists prevState.
  - destruct (IH (if JS.nullish (payload u) then prevState
                  else VObj (Object.assign ∅ [prevState; payload u])))
      as [newState Hrest].
    exists newState. intros nextProps w.
    cbn [processUpdateQueue]. unfold bind, getStateFromUpdate, bind.
    rewrite Hu. unfold ret at 1.
    destruct (JS.nullish (payload u)); apply Hrest.
Qed.

Lemma commitUpdateQueue_evolves fuel queue :
  respects evolves (commitUpdateQueue body fuel queue).
Proof.
  pose proof (call_evolves fuel).
  induction queue as [|u rest IH]; simpl; [respects_solve|].
  destruct (callback u); simpl; respects_solve.
Qed.

(** The state after the host has worked off a queue without updater
    functions, whatever the props are at that time. *)
Lemma flush_plain_state fuel st queue log :
  Forall (λ u, JS.is_function (payload u) = false) queue →
  ∃ newState, ∀ pr',
    state (this (flush body fuel (World (Instance pr' st queue) log)).2) = newState.
Proof.
  intros Hplain. destruct (processUpdateQueue_plain fuel queue Hplain st)
    as [newState Hprocess].
  exists newState. intros pr'.
  unfold flush, bind, get_this, set_this. cbn [this props state updateQueue calls].
  rewrite Hprocess. cbn [this props state updateQueue calls].
  destruct (commitUpdateQueue body fuel queue _) as [r w'] eqn:Hcommit.
  apply commitUpdateQueue_evolves in Hcommit as (Hs & _).
  by destruct r.
Qed.

End Application_facts.

(** ** The consumer below a Provider *)

(** What a consumer reads from the value the Provider renders. *)
Lemma get_globalState i w :
  JSM.get (Provider_render i).1 "globalState" w = (Ok (state i), w).
Proof. unfold JSM.get. simpl. by rewrite lookup_insert_eq. Qed.

Lemma get_setGlobalState i w :
  JSM.get (Provider_render i).1 "setGlobalState" w = (Ok VSetState, w).
Proof.
  unfold JSM.get. simpl.
  rewrite lookup_insert_ne by done. by rewrite lookup_singleton_eq.
Qed.

(** The element [connect] builds below a Provider, in terms of what the
    selector line yields. *)
Lemma connect_below_provider body fuel Component sel tr own rest w :
  connect body fuel Component sel tr own ((Provider_render (this w)).1 :: rest) w =
  match mappedState body fuel sel (snapshot w) w with
  | (Ok mapped, w') =>
      (Ok (React.Element Component
             (own ∪ (_mapTransmittersToProps (JS.default_param tr (VObj ∅)) VSetState ∪
                     (JS.own_props mapped ∪ {[ "setGlobalState" := VSetState ]})))),
       w')
  | (Fail e, w') => (Fail e, w')
  | (OutOfFuel, w') => (OutOfFuel, w')
  end.
Proof.
  unfold connect, React.Consumer. cbn [hd].
  unfold bind at 1. rewrite get_globalState.
  unfold bind at 1. rewrite get_setGlobalState.
  unfold bind, snapshot.
  by destruct (mappedState _ _ _ _ _) as [[mapped| |] w'].
Qed.

(** What the component receives of a config: everything but the reserved
    names. *)
Lemma lookup_received_props (e : React.element) k :
  React.received_props e !! k =
  if decide (k ∈ React.RESERVED_PROPS) then None else React.config e !! k.
Proof.
  unfold React.received_props. apply option_eq. intros v.
  rewrite map_lookup_filter_Some. simpl. case_decide as Hk.
  - split; [by intros [_ ?] | done].
  - split; [by intros [? _] | done].
Qed.

(** * The claims *)

(** ** The state container *)

(** C1.  From a Provider whose state is the object [s], calling
    [setGlobalState] with an object [p] and letting the host work off the
    queue yields the state [p ∪ s]: every key of [p] carries the value [p]
    gives it, every other key carries what [s] had. *)
Theorem update_object_shallow_merge body n fuel ps (s p : gmap string value) log :
  ∃ w1 w2,
    call body (S n) VSetState [VObj p] (World (Instance ps (VObj s) []) log)
      = (Ok VUndefined, w1) ∧
    flush body fuel w1 = (Ok tt, w2) ∧
    snapshot w2 = VObj (p ∪ s) ∧
    ∀ k, (p ∪ s) !! k = match p !! k with Some v => Some v | None => s !! k end.
Proof.
  do 2 eexists. split; [reflexivity|]. split; [reflexivity|].
  split.
  - unfold snapshot. simpl. by rewrite (right_id_L ∅ (∪)).
  - intros k. apply lookup_union_match.
Qed.

(** The scenario of the README: from the state [{loggedIn: false}],
    [setGlobalState({loggedIn: true})] leads to [{loggedIn: true}]. *)
Example scenario_login :
  snapshot
    (host_run Sample.body 1
       [Run VSetState [VObj {[ "loggedIn" := VBool true ]}]; Flush]
       (World (Instance {[ "globalState" := VObj {[ "loggedIn" := VBool false ]} ]}
                 (VObj {[ "loggedIn" := VBool false ]}) []) [])).2
  = VObj {[ "loggedIn" := VBool true ]}.
Proof. vm_compute. reflexivity. Qed.

(** C7.  An updater function [f] passed to [setGlobalState] is called, when
    the host works off the queue, with the state the Provider had before (and
    with its props); the object [p] it returns is merged into that state, with
    the same result as the object payload [p]. *)
Theorem update_function_payload body n fuel ps (s : gmap string value) f log
    (p : gmap string value) w' :
  JS.is_function f = true →
  call body fuel f [VObj s; VObj ps]
       (World (Instance ps (VObj s) []) (log ++ [(VSetState, [f])]))
    = (Ok (VObj p), w') →
  ∃ w1 w2 l,
    call body (S n) VSetState [f] (World (Instance ps (VObj s) []) log)
      = (Ok VUndefined, w1) ∧
    flush body fuel w1 = (Ok tt, w2) ∧
    calls w2 = log ++ (VSetState, [f]) :: (f, [VObj s; VObj ps]) :: l ∧
    snapshot w2 = VObj (p ∪ s) ∧
    ∃ v1 v2,
      call body (S n) VSetState [VObj p] (World (Instance ps (VObj s) []) log)
        = (Ok VUndefined, v1) ∧
      flush body fuel v1 = (Ok tt, v2) ∧
      snapshot v2 = snapshot w2.
Proof.
  intros Hf Hcall.
  assert (∃ l, calls w' = log ++ (VSetState, [f]) :: (f, [VObj s; VObj ps]) :: l)
    as [l Hl].
  { destruct fuel as [|fuel]; [discriminate|].
    apply call_logged in Hcall as [l Hl]; [|done].
    exists l. simpl in Hl. by rewrite Hl, <- app_assoc. }
  assert (call body (S n) VSetState [f] (World (Instance ps (VObj s) []) log)
          = (Ok VUndefined,
             World (Instance ps (VObj s) [Update f VNull]) (log ++ [(VSetState, [f])])))
    as Hset by (by destruct f).
  assert (flush body fuel
            (World (Instance ps (VObj s) [Update f VNull]) (log ++ [(VSetState, [f])]))
          = (Ok tt,
             World (Instance (props (this w')) (VObj (p ∪ s)) (updateQueue (this w')))
                   (calls w'))) as Hflush.
  { unfold flush, bind, get_this, set_this.
    cbn [updateQueue this state props calls processUpdateQueue commitUpdateQueue].
    unfold bind, getStateFromUpdate, bind. cbn [payload callback].
    rewrite Hf, Hcall. simpl. by rewrite (right_id_L ∅ (∪)). }
  eexists _, _, l. split; [exact Hset|]. split; [exact Hflush|].
  split; [done|]. split; [done|].
  do 2 eexists. split; [reflexivity|]. split; [reflexivity|].
  unfold snapshot. simpl. by rewrite (right_id_L ∅ (∪)).
Qed.

(** C7, on the sample application: the updater of the README, which adds one
    to [count]. *)
Lemma update_function_payload_witness :
  JS.is_function (VUser Sample.updater []) = true ∧
  call Sample.body 2 (VUser Sample.updater [])
       [VObj Sample.globalState; VObj (props Sample.provider)]
       (World Sample.provider ([] ++ [(VSetState, [VUser Sample.updater []])]))
    = (Ok (VObj {[ "count" := VNum 1 ]}),
       World Sample.provider
         [(VSetState, [VUser Sample.updater []]);
          (VUser Sample.updater [],
           [VObj Sample.globalState; VObj (props Sample.provider)])]) ∧
  ∃ w1 w2,
    call Sample.body 1 VSetState [VUser Sample.updater []] Sample.w0
      = (Ok VUndefined, w1) ∧
    flush Sample.body 2 w1 = (Ok tt, w2) ∧
    snapshot w2 = VObj ({[ "count" := VNum 1 ]} ∪ Sample.globalState).
Proof.
  split; [reflexivity|]. split; [vm_compute; reflexivity|].
  destruct (update_function_payload Sample.body 0 2 (props Sample.provider)
              Sample.globalState (VUser Sample.updater []) []
              {[ "count" := VNum 1 ]}
              (World Sample.provider
                 [(VSetState, [VUser Sample.updater []]);
                  (VUser Sample.updater [],
                   [VObj Sample.globalState; VObj (props Sample.provider)])]))
    as (w1 & w2 & l & H1 & H2 & _ & H4 & _);
    [reflexivity | vm_compute; reflexivity |].
  exists w1, w2. split; [exact H1|]. split; [exact H2|exact H4].
Defined.

(** ** The connector *)

(** C2.  Below a Provider, the props of the wrapped component are the own
    props laid over the bound transmitters, laid over the selected state,
    laid over [setGlobalState]: a key is taken from the last of these layers
    that has it.  The selector is applied to the state the Provider holds
    when the consumer is evaluated. *)
Theorem connect_merged_props body fuel Component sel tr own rest w mapped w' :
  mappedState body fuel sel (snapshot w) w = (Ok mapped, w') →
  ∃ merged,
    connect body fuel Component sel tr own ((Provider_render (this w)).1 :: rest) w
      = (Ok (React.Element Component merged), w') ∧
    ∀ k, merged !! k =
      match own !! k with
      | Some v => Some v
      | None =>
          match _mapTransmittersToProps (JS.default_param tr (VObj ∅)) VSetState !! k with
          | Some b => Some b
          | None =>
              match JS.own_props mapped !! k with
              | Some v => Some v
              | None => if decide (k = "setGlobalState") then Some VSetState else None
              end
          end
      end.
Proof.
  intros Hsel. eexists. split.
  - rewrite connect_below_provider, Hsel. reflexivity.
  - intros k. rewrite !lookup_union_match.
    destruct (own !! k); [done|].
    destruct (_mapTransmittersToProps _ _ !! k); [done|].
    destruct (JS.own_props mapped !! k); [done|].
    case_decide as Hk.
    + subst k. apply lookup_singleton_eq.
    + by apply lookup_singleton_ne.
Qed.

(** C2, on the sample application: the selector [state => state.portion],
    the transmitter map [{coinflip}], and own props that collide with the
    state on [foo]; the own [foo] wins. *)
Lemma connect_merged_props_witness :
  mappedState Sample.body 2 (VUser Sample.selector []) (snapshot Sample.w0) Sample.w0
    = (Ok (VObj {[ "foo" := VStr "bar" ]}),
       World Sample.provider [(VUser Sample.selector [], [VObj Sample.globalState])]) ∧
  ∃ merged,
    connect Sample.body 2 (VUser Sample.Game []) (VUser Sample.selector [])
            Sample.transmitters {[ "foo" := VStr "own" ]}
            [(Provider_render (this Sample.w0)).1] Sample.w0
      = (Ok (React.Element (VUser Sample.Game []) merged),
         World Sample.provider [(VUser Sample.selector [], [VObj Sample.globalState])]) ∧
    merged !! "foo" = Some (VStr "own") ∧
    merged !! "coinflip" = Some (VBound Sample.transmitters "coinflip" VSetState) ∧
    merged !! "setGlobalState" = Some VSetState ∧
    merged !! "loggedIn" = None.
Proof.
  split; [vm_compute; reflexivity|].
  destruct (connect_merged_props Sample.body 2 (VUser Sample.Game [])
              (VUser Sample.selector []) Sample.transmitters {[ "foo" := VStr "own" ]}
              [] Sample.w0 (VObj {[ "foo" := VStr "bar" ]})
              (World Sample.provider
                 [(VUser Sample.selector [], [VObj Sample.globalState])]))
    as (merged & Hconnect & Hmerged); [vm_compute; reflexivity|].
  exists merged. split; [exact Hconnect|].
  rewrite !Hmerged. repeat split; vm_compute; reflexivity.
Defined.

Lemma mappedState_falsy body fuel sel globalState :
  JS.truthy sel = false → mappedState body fuel sel globalState = ret globalState.
Proof. unfold mappedState. by intros ->. Qed.

(** C8.  Without a selector ([undefined]; also with the [null] the README
    passes in its place) the selected state is the whole state of the
    Provider, that is what is spread into the props, and nothing is called. *)
Theorem connect_default_selector body fuel Component tr own rest w :
  mappedState body fuel VUndefined (snapshot w) w = (Ok (snapshot w), w) ∧
  mappedState body fuel VNull (snapshot w) w = (Ok (snapshot w), w) ∧
  connect body fuel Component VUndefined tr own ((Provider_render (this w)).1 :: rest) w
    = (Ok (React.Element Component
             (own ∪ (_mapTransmittersToProps (JS.default_param tr (VObj ∅)) VSetState ∪
                     (JS.own_props (snapshot w) ∪ {[ "setGlobalState" := VSetState ]})))),
       w) ∧
  connect body fuel Component VNull tr own ((Provider_render (this w)).1 :: rest) w
    = (Ok (React.Element Component
             (own ∪ (_mapTransmittersToProps (JS.default_param tr (VObj ∅)) VSetState ∪
                     (JS.own_props (snapshot w) ∪ {[ "setGlobalState" := VSetState ]})))),
       w).
Proof.
  split; [done|]. split; [done|]. split.
  - rewrite connect_below_provider. by rewrite mappedState_falsy.
  - rewrite connect_below_provider. by rewrite mappedState_falsy.
Qed.

(** ** The transmitter binder *)

(** C3.  Binding keeps the names of the transmitter map; each name is bound
    to the closure of line 16, and calling that closure with [args] calls the
    raw transmitter of that name with [args] and then calls what it returned
    with the update entrypoint.  Evaluating a connected consumer that has no
    selector, which binds the transmitters, calls nothing. *)
Theorem bind_transmitters transmitters setGlobalState :
  dom (_mapTransmittersToProps transmitters setGlobalState)
    = dom (JS.own_props transmitters) ∧
  (∀ name raw,
     JS.own_props transmitters !! name = Some raw →
     _mapTransmittersToProps transmitters setGlobalState !! name
       = Some (VBound transmitters name setGlobalState)) ∧
  (∀ body n name raw args w,
     JS.own_props transmitters !! name = Some raw →
     JS.is_function raw = true →
     call body (S n) (VBound transmitters name setGlobalState) args w =
     (log (VBound transmitters name setGlobalState) args ;;;
      r <- call body n raw args ;;
      call body n r [setGlobalState]) w) ∧
  (∀ body fuel Component own rest w,
     (connect body fuel Component VUndefined transmitters own
        ((Provider_render (this w)).1 :: rest) w).2 = w).
Proof.
  split; [|split; [|split]].
  - apply set_eq. intros k. rewrite !elem_of_dom, lookup_mapTransmittersToProps.
    destruct (JS.own_props transmitters !! k) as [raw|].
    + split; intros _; eauto.
    + split; intros [? ?]; done.
  - intros name raw Hraw. by rewrite lookup_mapTransmittersToProps, Hraw.
  - intros body n name raw args w Hraw Hf.
    cbn [call]. rewrite (get_own _ _ _ Hraw).
    change (bind (ret raw) ?k) with (k raw). cbv beta.
    by rewrite (method_apply_function _ _ _ Hf).
  - intros body fuel Component own rest w.
    rewrite connect_below_provider. by rewrite mappedState_falsy.
Qed.

(** C3, on the sample application: the bound [coinflip], called with a guess,
    runs both stages of the transmitter, which calls [setGlobalState] twice;
    after the host has worked off the queue the state holds the result. *)
Lemma bind_transmitters_witness :
  JS.own_props Sample.transmitters !! "coinflip" = Some (VUser Sample.coinflip []) ∧
  JS.is_function (VUser Sample.coinflip []) = true ∧
  _mapTransmittersToProps Sample.transmitters VSetState !! "coinflip"
    = Some (VBound Sample.transmitters "coinflip" VSetState) ∧
  call Sample.body 3 (VBound Sample.transmitters "coinflip" VSetState)
       [VStr "HEADS"] Sample.w0
    = (log (VBound Sample.transmitters "coinflip" VSetState) [VStr "HEADS"] ;;;
       r <- call Sample.body 2 (VUser Sample.coinflip []) [VStr "HEADS"] ;;
       call Sample.body 2 r [VSetState]) Sample.w0 ∧
  snapshot
    (host_run Sample.body 3
       [Run (VBound Sample.transmitters "coinflip" VSetState) [VStr "HEADS"]; Flush]
       Sample.w0).2
    = VObj (<[ "result" := VStr "HEADS" ]> Sample.globalState).
Proof.
  destruct (bind_transmitters Sample.transmitters VSetState) as (_ & Hname & Hcall & _).
  split; [reflexivity|]. split; [reflexivity|].
  split; [apply (Hname "coinflip" (VUser Sample.coinflip [])); reflexivity|].
  split; [apply (Hcall Sample.body 2 "coinflip" (VUser Sample.coinflip []));
          reflexivity|].
  vm_compute. reflexivity.
Defined.

(** ** Failures *)

(** C4, as the code has it.  The constructor does not fail, whatever
    [props.globalState] is; when that is an object, it is the state the
    constructor sets, the state of the mounted Provider, and what the
    Provider publishes as [globalState]: the first Snapshot. *)
Theorem constructor_takes_any_globalState (ps : gmap string value) :
  ∃ i, Provider_constructor ps = Ok i ∧
       props i = ps ∧
       updateQueue i = [] ∧
       ∀ o, ps !! "globalState" = Some (VObj o) →
            state i = VObj o ∧
            snapshot (World (React.mount i) []) = VObj o ∧
            (Provider_render (React.mount i)).1 =
              VObj {[ "globalState" := VObj o; "setGlobalState" := VSetState ]}.
Proof.
  eexists. split; [reflexivity|]. split; [done|]. split; [done|].
  intros o Ho. unfold snapshot, Provider_render, React.mount. simpl.
  by rewrite Ho.
Qed.

(** C4, on the sample application: the Provider of the sample is what the
    constructor makes of its props, and its state is the [globalState]
    object. *)
Lemma constructor_takes_any_globalState_witness :
  props Sample.provider !! "globalState" = Some (VObj Sample.globalState) ∧
  ∃ i, Provider_constructor (props Sample.provider) = Ok i ∧
       state i = VObj Sample.globalState ∧
       snapshot (World (React.mount i) []) = VObj Sample.globalState.
Proof.
  split; [reflexivity|].
  destruct (constructor_takes_any_globalState (props Sample.provider))
    as (i & Hi & _ & _ & Hobject).
  destruct (Hobject Sample.globalState eq_refl) as (Hstate & Hsnapshot & _).
  exists i. split; [exact Hi|]. split; [exact Hstate|exact Hsnapshot].
Defined.

(** C4 as stated fails: a Provider constructed without [globalState], or with
    a number for it, is constructed all the same, with that value for its
    state. *)
Lemma constructor_no_MissingInitialState :
  Provider_constructor ∅ = Ok (Instance ∅ VUndefined []) ∧
  Provider_constructor {[ "globalState" := VNum 5 ]}
    = Ok (Instance {[ "globalState" := VNum 5 ]} (VNum 5) []) ∧
  ¬ ∃ e, Provider_constructor ∅ = Fail e ∧ error_name e = Some "MissingInitialState".
Proof.
  split; [reflexivity|]. split; [reflexivity|].
  intros (e & H & _). discriminate H.
Qed.

(** C5, as the code has it.  With no Provider above it the consumer reads the
    default value of the context, [undefined], and destructuring it is a
    [TypeError]; nothing has been called by then. *)
Theorem connect_outside_provider body fuel Component sel tr own w :
  connect body fuel Component sel tr own [] w = (Fail TypeError, w) ∧
  error_name TypeError = Some "TypeError".
Proof. done. Qed.

(** C5 as stated fails: the error raised outside a Provider is not a
    [MissingProviderError]. *)
Lemma connect_no_MissingProviderError :
  ¬ ∃ e w,
      connect Sample.body 3 (VUser Sample.Game []) VUndefined Sample.transmitters ∅ []
              Sample.w0 = (Fail e, w) ∧
      error_name e = Some "MissingProviderError".
Proof.
  intros (e & w & H & Hname).
  cbn in H. injection H as <- _. discriminate Hname.
Qed.

(** C6, as the code has it.  [setGlobalState] is React's [setState]: a
    boolean, number or string payload is refused with React's invariant
    error and nothing is enqueued; every other payload, [undefined] and
    [null] included, is enqueued without an error. *)
Theorem setGlobalState_payload_check body n args w :
  call body (S n) VSetState args w =
  match JS.arg 0 args with
  | VBool _ | VNum _ | VStr _ =>
      (Fail InvariantViolation,
       World (this w) (calls w ++ [(VSetState, args)]))
  | partialState =>
      (Ok VUndefined,
       World (Instance (props (this w)) (state (this w))
                (updateQueue (this w) ++
                 [Update partialState
                    (if JS.nullish (JS.arg 1 args) then VNull else JS.arg 1 args)]))
             (calls w ++ [(VSetState, args)]))
  end ∧
  error_name InvariantViolation = Some "Invariant Violation".
Proof. split; [|done]. cbn [call]. by destruct (JS.arg 0 args). Qed.

(** C6 as stated fails: [undefined] is neither an object nor a function and
    is accepted; a number is refused, but not with an
    [InvalidUpdatePayload]. *)
Lemma setGlobalState_no_InvalidUpdatePayload :
  call Sample.body 1 VSetState [VUndefined] Sample.w0 =
    (Ok VUndefined,
     World (Instance (props Sample.provider) (state Sample.provider)
              [Update VUndefined VNull])
           [(VSetState, [VUndefined])]) ∧
  ¬ ∃ e w, call Sample.body 1 VSetState [VNum 5] Sample.w0 = (Fail e, w) ∧
           error_name e = Some "InvalidUpdatePayload".
Proof.
  split; [reflexivity|].
  intros (e & w & H & Hname).
  cbn in H. injection H as <- _. discriminate Hname.
Qed.

(** ** The state and the props of the Provider *)

(** C10.  The [globalState] prop is read once, by the constructor: it gives
    the state of the mounted Provider ([null] when the prop was absent).
    From then on, in any world:
    - over a run of the host that finds the queue empty and in which the
      bound [setState] is not called (the Provider is rendered again with
      other props, any number of times; the queue is worked off; code of the
      application runs), the state stays what it was, whatever updates came
      before;
    - rendering the Provider again with other props, the queue being empty,
      replaces [this.props] and nothing else;
    - when updates are pending that are not updater functions, rendering the
      Provider again with other props leads to the state that working off
      the queue leads to: the new props add nothing to it. *)
Theorem provider_captures_globalState_once body fuel ps i :
  Provider_constructor ps = Ok i →
  snapshot (World (React.mount i) []) =
    (if JS.nullish (default VUndefined (ps !! "globalState")) then VNull
     else default VUndefined (ps !! "globalState")) ∧
  (∀ w es r w' l,
     updateQueue (this w) = [] →
     host_run body fuel es w = (r, w') →
     calls w' = calls w ++ l →
     (∀ args, (VSetState, args) ∉ l) →
     snapshot w' = snapshot w) ∧
  (∀ w nextProps,
     updateQueue (this w) = [] →
     host_step body fuel (ReceiveProps nextProps) w
       = (Ok tt, World (Instance nextProps (state (this w)) []) (calls w))) ∧
  (∀ w nextProps,
     Forall (λ u, JS.is_function (payload u) = false) (updateQueue (this w)) →
     snapshot (host_step body fuel (ReceiveProps nextProps) w).2
       = snapshot (host_step body fuel Flush w).2).
Proof.
  intros [= <-]. split; [reflexivity|]. split; [|split].
  - intros w es r w' l Hq Hrun Hlog Hquiet.
    exact (host_run_quiet body fuel es _ _ _ _ Hrun Hq Hlog Hquiet).
  - intros [[pr st q] log] nextProps. cbn [this updateQueue state calls]. intros ->.
    change (host_step body fuel (ReceiveProps nextProps) (World (Instance pr st []) log))
      with (flush body fuel (World (Instance nextProps st []) log)).
    by rewrite flush_empty_queue.
  - intros [[pr st q] log] nextProps. cbn [this updateQueue]. intros Hplain.
    destruct (flush_plain_state body fuel st q log Hplain) as [newState Hflush].
    change (host_step body fuel (ReceiveProps nextProps) (World (Instance pr st q) log))
      with (flush body fuel (World (Instance nextProps st q) log)).
    change (host_step body fuel Flush (World (Instance pr st q) log))
      with (flush body fuel (World (Instance pr st q) log)).
    unfold snapshot. by rewrite !Hflush.
Qed.

(** C10, on the sample application.  The Provider has been updated to
    [loggedIn = true]; then it is rendered again with a [globalState] prop
    that says [loggedIn = false], the selector runs, and it is rendered once
    more without any [globalState]: the state is still the updated one.  And
    with the update still pending, the new props lead to the same state as
    working off the queue. *)
Lemma provider_captures_globalState_once_witness :
  Provider_constructor (props Sample.provider) = Ok Sample.provider ∧
  snapshot (World (React.mount Sample.provider) []) = VObj Sample.globalState ∧
  host_run Sample.body 2
    [Run VSetState [VObj {[ "loggedIn" := VBool true ]}]; Flush]
    Sample.w0
    = (Ok tt,
       World (Instance (props Sample.provider)
                (VObj (<[ "loggedIn" := VBool true ]> Sample.globalState)) [])
             [(VSetState, [VObj {[ "loggedIn" := VBool true ]}])]) ∧
  host_run Sample.body 2
    [ReceiveProps {[ "globalState" := VObj {[ "loggedIn" := VBool false ]} ]};
     Flush;
     Run (VUser Sample.selector []) [VObj Sample.globalState];
     ReceiveProps ∅]
    (World (Instance (props Sample.provider)
              (VObj (<[ "loggedIn" := VBool true ]> Sample.globalState)) [])
           [(VSetState, [VObj {[ "loggedIn" := VBool true ]}])])
    = (Ok tt,
       World (Instance ∅ (VObj (<[ "loggedIn" := VBool true ]> Sample.globalState)) [])
             ([(VSetState, [VObj {[ "loggedIn" := VBool true ]}])] ++
              [(VUser Sample.selector [], [VObj Sample.globalState])])) ∧
  snapshot
    (World (Instance ∅ (VObj (<[ "loggedIn" := VBool true ]> Sample.globalState)) [])
           ([(VSetState, [VObj {[ "loggedIn" := VBool true ]}])] ++
            [(VUser Sample.selector [], [VObj Sample.globalState])]))
    = snapshot
        (World (Instance (props Sample.provider)
                  (VObj (<[ "loggedIn" := VBool true ]> Sample.globalState)) [])
               [(VSetState, [VObj {[ "loggedIn" := VBool true ]}])]) ∧
  snapshot
    (host_step Sample.body 2
       (ReceiveProps {[ "globalState" := VObj {[ "loggedIn" := VBool false ]} ]})
       (World (Instance (props Sample.provider) (VObj Sample.globalState)
                 [Update (VObj {[ "loggedIn" := VBool true ]}) VNull]) [])).2
    = snapshot
        (host_step Sample.body 2 Flush
           (World (Instance (props Sample.provider) (VObj Sample.globalState)
                     [Update (VObj {[ "loggedIn" := VBool true ]}) VNull]) [])).2.
Proof.
  destruct (provider_captures_globalState_once Sample.body 2 (props Sample.provider)
              Sample.provider eq_refl) as (Hfirst & Hquiet & _ & Hpending).
  split; [reflexivity|]. split; [exact Hfirst|].
  split; [vm_compute; reflexivity|]. split; [vm_compute; reflexivity|]. split.
  - eapply (Hquiet _
              [ReceiveProps {[ "globalState" := VObj {[ "loggedIn" := VBool false ]} ]};
               Flush;
               Run (VUser Sample.selector []) [VObj Sample.globalState];
               ReceiveProps ∅]
              (Ok tt) _
              [(VUser Sample.selector [], [VObj Sample.globalState])]).
    + reflexivity.
    + vm_compute; reflexivity.
    + reflexivity.
    + intros args Hin. apply list_elem_of_singleton in Hin. discriminate Hin.
  - apply Hpending. repeat constructor.
Defined.

(** * Further properties of the library *)

(** ** [connect]: the layers in the edge cases *)

Lemma mapTransmittersToProps_empty transmitters setGlobalState :
  JS.own_props transmitters = ∅ →
  _mapTransmittersToProps transmitters setGlobalState = ∅.
Proof.
  intros Hempty. apply map_eq. intros k.
  by rewrite lookup_mapTransmittersToProps, Hempty, !lookup_empty.
Qed.

Lemma own_props_default_param tr :
  JS.own_props tr = ∅ → JS.own_props (JS.default_param tr (VObj ∅)) = ∅.
Proof. by destruct tr. Qed.

(** X1.  A connected consumer whose transmitter argument has no enumerable
    properties (left out, [null], an empty object, a number, a function)
    gets no bound transmitter: its props are the own props over the selected
    state over [setGlobalState]. *)
Theorem connect_without_transmitters body fuel Component sel tr own rest w mapped w' :
  JS.own_props tr = ∅ →
  mappedState body fuel sel (snapshot w) w = (Ok mapped, w') →
  connect body fuel Component sel tr own ((Provider_render (this w)).1 :: rest) w
    = (Ok (React.Element Component
             (own ∪ (JS.own_props mapped ∪ {[ "setGlobalState" := VSetState ]}))),
       w').
Proof.
  intros Htr Hsel. rewrite connect_below_provider, Hsel.
  rewrite mapTransmittersToProps_empty by by apply own_props_default_param.
  by rewrite (left_id_L ∅ (∪)).
Qed.

(** X1, on the sample application: [connect(Game, state => state.portion)]
    and [connect(Game, state => state.portion, null)]. *)
Lemma connect_without_transmitters_witness :
  JS.own_props VNull = ∅ ∧
  mappedState Sample.body 2 (VUser Sample.selector []) (snapshot Sample.w0) Sample.w0
    = (Ok (VObj {[ "foo" := VStr "bar" ]}),
       World Sample.provider [(VUser Sample.selector [], [VObj Sample.globalState])]) ∧
  connect Sample.body 2 (VUser Sample.Game []) (VUser Sample.selector []) VNull ∅
          [(Provider_render (this Sample.w0)).1] Sample.w0
    = (Ok (React.Element (VUser Sample.Game [])
             (∅ ∪ (JS.own_props (VObj {[ "foo" := VStr "bar" ]})
                   ∪ {[ "setGlobalState" := VSetState ]}))),
       World Sample.provider [(VUser Sample.selector [], [VObj Sample.globalState])]).
Proof.
  split; [reflexivity|]. split; [vm_compute; reflexivity|].
  apply (connect_without_transmitters Sample.body 2 (VUser Sample.Game [])
           (VUser Sample.selector []) VNull ∅ [] Sample.w0);
    [reflexivity | vm_compute; reflexivity].
Defined.

(** X2.  [connect] catches nothing: when the selector fails, the evaluation
    of the consumer fails with the selector's error, in the world the
    selector left, and no element is built. *)
Theorem connect_selector_failure body fuel Component sel tr own rest w e w' :
  mappedState body fuel sel (snapshot w) w = (Fail e, w') →
  connect body fuel Component sel tr own ((Provider_render (this w)).1 :: rest) w
    = (Fail e, w').
Proof. intros Hsel. by rewrite connect_below_provider, Hsel. Qed.

(** X3.  A selector argument that is truthy but not a function (an object, a
    non-zero number, a non-empty string, [true]) makes every evaluation of
    the consumer fail with a [TypeError]; nothing has been called. *)
Theorem connect_selector_not_function body n Component sel tr own rest w :
  JS.truthy sel = true →
  JS.is_function sel = false →
  connect body (S n) Component sel tr own ((Provider_render (this w)).1 :: rest) w
    = (Fail TypeError, w).
Proof.
  intros Htruthy Hfun. rewrite connect_below_provider.
  unfold mappedState. rewrite Htruthy. by destruct sel.
Qed.

(** X3, for [connect(Game, {})]. *)
Lemma connect_selector_not_function_witness :
  JS.truthy (VObj ∅) = true ∧
  JS.is_function (VObj ∅) = false ∧
  connect Sample.body 1 (VUser Sample.Game []) (VObj ∅) Sample.transmitters ∅
          [(Provider_render (this Sample.w0)).1] Sample.w0
    = (Fail TypeError, Sample.w0).
Proof.
  split; [reflexivity|]. split; [reflexivity|].
  apply (connect_selector_not_function Sample.body 0 (VUser Sample.Game []) (VObj ∅)
           Sample.transmitters ∅ [] Sample.w0); reflexivity.
Defined.

(** X2, on the sample application: the selector [state => state.portion]
    throws when the state is [null], as it is below a Provider that was
    mounted without a [globalState]. *)
Lemma connect_selector_failure_witness :
  mappedState Sample.body 2 (VUser Sample.selector [])
              (snapshot (World (Instance ∅ VNull []) []))
              (World (Instance ∅ VNull []) [])
    = (Fail (Thrown (VStr "TypeError")),
       World (Instance ∅ VNull []) [(VUser Sample.selector [], [VNull])]) ∧
  connect Sample.body 2 (VUser Sample.Game []) (VUser Sample.selector []) VUndefined ∅
          [(Provider_render (Instance ∅ VNull [])).1]
          (World (Instance ∅ VNull []) [])
    = (Fail (Thrown (VStr "TypeError")),
       World (Instance ∅ VNull []) [(VUser Sample.selector [], [VNull])]).
Proof.
  split; [vm_compute; reflexivity|].
  apply (connect_selector_failure Sample.body 2 (VUser Sample.Game [])
           (VUser Sample.selector []) VUndefined ∅ []
           (World (Instance ∅ VNull []) [])).
  vm_compute; reflexivity.
Defined.

(** X4.  A selector that yields a value without enumerable properties
    ([undefined] for a missing portion of the state, [null], a number, a
    boolean, a function) is no error: the consumer gets no state props, only
    its own props over the bound transmitters over [setGlobalState]. *)
Theorem connect_selected_without_properties
    body fuel Component sel tr own rest w mapped w' :
  mappedState body fuel sel (snapshot w) w = (Ok mapped, w') →
  JS.own_props mapped = ∅ →
  connect body fuel Component sel tr own ((Provider_render (this w)).1 :: rest) w
    = (Ok (React.Element Component
             (own ∪ (_mapTransmittersToProps (JS.default_param tr (VObj ∅)) VSetState ∪
                     {[ "setGlobalState" := VSetState ]}))),
       w').
Proof.
  intros Hsel Hempty. rewrite connect_below_provider, Hsel, Hempty.
  by rewrite (left_id_L ∅ (∪)).
Qed.

(** X4, on the sample application: the state has no [portion]. *)
Lemma connect_selected_without_properties_witness :
  mappedState Sample.body 2 (VUser Sample.selector [])
              (snapshot (World (Instance ∅ (VObj ∅) []) []))
              (World (Instance ∅ (VObj ∅) []) [])
    = (Ok VUndefined,
       World (Instance ∅ (VObj ∅) []) [(VUser Sample.selector [], [VObj ∅])]) ∧
  JS.own_props VUndefined = ∅ ∧
  connect Sample.body 2 (VUser Sample.Game []) (VUser Sample.selector [])
          Sample.transmitters ∅
          [(Provider_render (this (World (Instance ∅ (VObj ∅) []) []))).1]
          (World (Instance ∅ (VObj ∅) []) [])
    = (Ok (React.Element (VUser Sample.Game [])
             (∅ ∪ (_mapTransmittersToProps
                     (JS.default_param Sample.transmitters (VObj ∅)) VSetState ∪
                   {[ "setGlobalState" := VSetState ]}))),
       World (Instance ∅ (VObj ∅) []) [(VUser Sample.selector [], [VObj ∅])]).
Proof.
  split; [vm_compute; reflexivity|]. split; [reflexivity|].
  apply (connect_selected_without_properties Sample.body 2 (VUser Sample.Game [])
           (VUser Sample.selector []) Sample.transmitters ∅ []
           (World (Instance ∅ (VObj ∅) []) []) VUndefined);
    [vm_compute; reflexivity | reflexivity].
Defined.

(** X5.  The attribute object a connected consumer builds for the wrapped
    component has exactly the names of the own props, of the transmitter map,
    of the selected state, and [setGlobalState].  The wrapped component
    receives each of these names except the ones React reserves; the name
    [setGlobalState] is not reserved, so it is always among the props
    received. *)
Theorem connect_props_names body fuel Component sel tr own rest w mapped w' :
  mappedState body fuel sel (snapshot w) w = (Ok mapped, w') →
  ∃ merged,
    connect body fuel Component sel tr own ((Provider_render (this w)).1 :: rest) w
      = (Ok (React.Element Component merged), w') ∧
    dom merged =
      dom own ∪ (dom (JS.own_props (JS.default_param tr (VObj ∅))) ∪
                 (dom (JS.own_props mapped) ∪ {[ "setGlobalState" ]})) ∧
    (∀ k, (k ∈ dom (React.received_props (React.Element Component merged)))
          ↔ (k ∈ dom merged ∧ k ∉ React.RESERVED_PROPS)) ∧
    "setGlobalState" ∈ dom (React.received_props (React.Element Component merged)).
Proof.
  intros Hsel. eexists. split; [by rewrite connect_below_provider, Hsel|].
  assert (dom (_mapTransmittersToProps (JS.default_param tr (VObj ∅)) VSetState)
          = dom (JS.own_props (JS.default_param tr (VObj ∅)))) as Hdom.
  { apply set_eq. intros k. rewrite !elem_of_dom, lookup_mapTransmittersToProps.
    destruct (JS.own_props _ !! k) as [raw|].
    - split; intros _; eauto.
    - split; intros [? ?]; done. }
  assert (∀ (m : gmap string value) k,
            (k ∈ dom (React.received_props (React.Element Component m)))
            ↔ (k ∈ dom m ∧ k ∉ React.RESERVED_PROPS)) as Hreceived.
  { intros m k. rewrite !elem_of_dom, lookup_received_props. simpl.
    case_decide as Hk.
    - split; [by intros [? ?] | by intros [_ ?]].
    - split; [by intros ? | by intros [? _]]. }
  split; [|split].
  - rewrite !dom_union_L, dom_singleton_L. rewrite Hdom. reflexivity.
  - apply Hreceived.
  - apply Hreceived. split.
    + rewrite !dom_union_L, dom_singleton_L.
      do 3 (apply elem_of_union; right). by apply elem_of_singleton.
    + unfold React.RESERVED_PROPS. intros Hin.
      repeat (apply elem_of_cons in Hin as [Hin|Hin]; [discriminate Hin|]).
      by apply elem_of_nil in Hin.
Qed.

(** X5, on the sample application, with a state that has a [key]: the name
    is in the attribute object and is not received. *)
Lemma connect_props_names_witness :
  mappedState Sample.body 2 VUndefined
              (snapshot (World (Instance ∅ (VObj {[ "key" := VStr "k"; "foo" := VNum 1 ]}) [])
                               []))
              (World (Instance ∅ (VObj {[ "key" := VStr "k"; "foo" := VNum 1 ]}) []) [])
    = (Ok (VObj {[ "key" := VStr "k"; "foo" := VNum 1 ]}),
       World (Instance ∅ (VObj {[ "key" := VStr "k"; "foo" := VNum 1 ]}) []) []) ∧
  ∃ merged,
    connect Sample.body 2 (VUser Sample.Game []) VUndefined
            Sample.transmitters {[ "own" := VNum 1 ]}
            [(Provider_render
                (this (World (Instance ∅ (VObj {[ "key" := VStr "k"; "foo" := VNum 1 ]}) [])
                             []))).1]
            (World (Instance ∅ (VObj {[ "key" := VStr "k"; "foo" := VNum 1 ]}) []) [])
      = (Ok (React.Element (VUser Sample.Game []) merged),
         World (Instance ∅ (VObj {[ "key" := VStr "k"; "foo" := VNum 1 ]}) []) []) ∧
    dom merged = {[ "own"; "coinflip"; "key"; "foo"; "setGlobalState" ]} ∧
    ("key" ∉ dom (React.received_props (React.Element (VUser Sample.Game []) merged))) ∧
    "setGlobalState"
      ∈ dom (React.received_props (React.Element (VUser Sample.Game []) merged)).
Proof.
  split; [vm_compute; reflexivity|].
  destruct (connect_props_names Sample.body 2 (VUser Sample.Game [])
              VUndefined Sample.transmitters {[ "own" := VNum 1 ]}
              []
              (World (Instance ∅ (VObj {[ "key" := VStr "k"; "foo" := VNum 1 ]}) []) [])
              (VObj {[ "key" := VStr "k"; "foo" := VNum 1 ]})
              (World (Instance ∅ (VObj {[ "key" := VStr "k"; "foo" := VNum 1 ]}) []) []))
    as (merged & Hconnect & Hdom & Hreceived & Hentry); [vm_compute; reflexivity|].
  exists merged. split; [exact Hconnect|]. split.
  - rewrite Hdom. vm_compute. reflexivity.
  - split; [|exact Hentry].
    intros [_ Hreserved]%Hreceived. apply Hreserved.
    unfold React.RESERVED_PROPS. by left.
Defined.

(** X6.  A key [setGlobalState] in the selected state hides the update
    entrypoint from the wrapped component (unless an own prop or a
    transmitter of that name hides it in turn); the bound transmitters are
    not affected, they are bound to the entrypoint the Provider published. *)
Theorem state_key_hides_entrypoint
    body fuel Component sel tr own rest w mapped w' v name raw :
  mappedState body fuel sel (snapshot w) w = (Ok mapped, w') →
  JS.own_props mapped !! "setGlobalState" = Some v →
  own !! "setGlobalState" = None →
  JS.own_props (JS.default_param tr (VObj ∅)) !! "setGlobalState" = None →
  JS.own_props (JS.default_param tr (VObj ∅)) !! name = Some raw →
  own !! name = None →
  ∃ merged,
    connect body fuel Component sel tr own ((Provider_render (this w)).1 :: rest) w
      = (Ok (React.Element Component merged), w') ∧
    merged !! "setGlobalState" = Some v ∧
    merged !! name = Some (VBound (JS.default_param tr (VObj ∅)) name VSetState).
Proof.
  intros Hsel Hv Hown Htr Hraw Hname. eexists.
  split; [by rewrite connect_below_provider, Hsel|]. split.
  - rewrite !lookup_union_match, Hown, lookup_mapTransmittersToProps, Htr. by rewrite Hv.
  - rewrite !lookup_union_match, Hname, lookup_mapTransmittersToProps. by rewrite Hraw.
Qed.

(** X6, for a state [{setGlobalState: 1}] and the transmitter map of the
    sample application. *)
Lemma state_key_hides_entrypoint_witness :
  ∃ merged,
    connect Sample.body 2 (VUser Sample.Game []) VUndefined Sample.transmitters ∅
            [(Provider_render
                (this (World (Instance ∅ (VObj {[ "setGlobalState" := VNum 1 ]}) []) []))).1]
            (World (Instance ∅ (VObj {[ "setGlobalState" := VNum 1 ]}) []) [])
      = (Ok (React.Element (VUser Sample.Game []) merged),
         World (Instance ∅ (VObj {[ "setGlobalState" := VNum 1 ]}) []) []) ∧
    merged !! "setGlobalState" = Some (VNum 1) ∧
    merged !! "coinflip"
      = Some (VBound (JS.default_param Sample.transmitters (VObj ∅)) "coinflip" VSetState).
Proof.
  apply (state_key_hides_entrypoint Sample.body 2 (VUser Sample.Game []) VUndefined
           Sample.transmitters ∅ []
           (World (Instance ∅ (VObj {[ "setGlobalState" := VNum 1 ]}) []) [])
           (VObj {[ "setGlobalState" := VNum 1 ]})
           (World (Instance ∅ (VObj {[ "setGlobalState" := VNum 1 ]}) []) [])
           (VNum 1) "coinflip" (VUser Sample.coinflip []));
    vm_compute; reflexivity.
Defined.

(** ** Bound transmitters that are not what they should be *)

(** X7.  Binding does not look at the values of the transmitter map: an entry
    that is not a function (and not an object with an [apply] of its own) is
    bound like any other, and it is the call of the bound function that
    fails, with a [TypeError], before anything else is called. *)
Theorem bound_call_not_function body n transmitters setGlobalState name raw args w :
  JS.own_props transmitters !! name = Some raw →
  JS.is_function raw = false →
  (∀ o, raw = VObj o → o !! "apply" = None) →
  _mapTransmittersToProps transmitters setGlobalState !! name
    = Some (VBound transmitters name setGlobalState) ∧
  call body (S n) (VBound transmitters name setGlobalState) args w
    = (Fail TypeError,
       World (this w) (calls w ++ [(VBound transmitters name setGlobalState, args)])).
Proof.
  intros Hraw Hfun Happly. split.
  - by rewrite lookup_mapTransmittersToProps, Hraw.
  - cbn [call]. rewrite (get_own _ _ _ Hraw).
    change (bind (ret raw) ?k) with (k raw). cbv beta.
    unfold JSM.method_apply. rewrite Hfun.
    destruct raw; try done. by rewrite (Happly o eq_refl).
Qed.

(** X7, for [connect(Game, null, {coinflip: 5})]. *)
Lemma bound_call_not_function_witness :
  JS.own_props (VObj {[ "coinflip" := VNum 5 ]}) !! "coinflip" = Some (VNum 5) ∧
  JS.is_function (VNum 5) = false ∧
  _mapTransmittersToProps (VObj {[ "coinflip" := VNum 5 ]}) VSetState !! "coinflip"
    = Some (VBound (VObj {[ "coinflip" := VNum 5 ]}) "coinflip" VSetState) ∧
  call Sample.body 1 (VBound (VObj {[ "coinflip" := VNum 5 ]}) "coinflip" VSetState)
       [VStr "HEADS"] Sample.w0
    = (Fail TypeError,
       World (this Sample.w0)
         (calls Sample.w0 ++
          [(VBound (VObj {[ "coinflip" := VNum 5 ]}) "coinflip" VSetState,
            [VStr "HEADS"])])).
Proof.
  split; [reflexivity|]. split; [reflexivity|].
  apply (bound_call_not_function Sample.body 0 (VObj {[ "coinflip" := VNum 5 ]})
           VSetState "coinflip" (VNum 5) [VStr "HEADS"] Sample.w0);
    [reflexivity | reflexivity | intros o Ho; discriminate Ho].
Defined.

(** X8.  A transmitter whose first stage returns something that is not a
    function makes the bound function fail with a [TypeError] after the first
    stage has run: what the first stage did to the world stays. *)
Theorem bound_call_stage_not_function
    body n transmitters setGlobalState name raw args w r w' :
  JS.own_props transmitters !! name = Some raw →
  JS.is_function raw = true →
  call body n raw args
       (World (this w) (calls w ++ [(VBound transmitters name setGlobalState, args)]))
    = (Ok r, w') →
  JS.is_function r = false →
  call body (S n) (VBound transmitters name setGlobalState) args w
    = (Fail TypeError, w').
Proof.
  intros Hraw Hfun Hcall Hr.
  cbn [call]. rewrite (get_own _ _ _ Hraw).
  change (bind (ret raw) ?k) with (k raw). cbv beta.
  rewrite (method_apply_function _ _ _ Hfun).
  unfold bind at 1, log. unfold bind. rewrite Hcall.
  destruct n as [|n]; [discriminate Hcall|]. by destruct r.
Qed.

(** X8, for a transmitter written as a plain function of its arguments
    (code 5 of the sample table returns [undefined]). *)
Lemma bound_call_stage_not_function_witness :
  call Sample.body 1 (VUser 5 []) [VStr "HEADS"]
       (World (this Sample.w0)
          (calls Sample.w0 ++
           [(VBound (VObj {[ "plain" := VUser 5 [] ]}) "plain" VSetState, [VStr "HEADS"])]))
    = (Ok VUndefined,
       World Sample.provider
         [(VBound (VObj {[ "plain" := VUser 5 [] ]}) "plain" VSetState, [VStr "HEADS"]);
          (VUser 5 [], [VStr "HEADS"])]) ∧
  call Sample.body 2 (VBound (VObj {[ "plain" := VUser 5 [] ]}) "plain" VSetState)
       [VStr "HEADS"] Sample.w0
    = (Fail TypeError,
       World Sample.provider
         [(VBound (VObj {[ "plain" := VUser 5 [] ]}) "plain" VSetState, [VStr "HEADS"]);
          (VUser 5 [], [VStr "HEADS"])]).
Proof.
  split; [vm_compute; reflexivity|].
  apply (bound_call_stage_not_function Sample.body 1 (VObj {[ "plain" := VUser 5 [] ]})
           VSetState "plain" (VUser 5 []) [VStr "HEADS"] Sample.w0 VUndefined);
    vm_compute; reflexivity.
Defined.

(** ** [setGlobalState] and the state of the Provider *)

(** X9.  The constructor takes any value for the state, and the first object
    update makes an object of it: whatever the state [s] was (an object,
    [undefined], a number, a string), after [setGlobalState(p)] it is the
    object that has the keys of [p] over the enumerable properties of [s]. *)
Theorem update_any_state body n fuel ps (s : value) (p : gmap string value) log :
  ∃ w1 w2,
    call body (S n) VSetState [VObj p] (World (Instance ps s []) log)
      = (Ok VUndefined, w1) ∧
    flush body fuel w1 = (Ok tt, w2) ∧
    snapshot w2 = VObj (p ∪ JS.own_props s) ∧
    props (this w2) = ps ∧
    updateQueue (this w2) = [].
Proof.
  do 2 eexists. split; [reflexivity|]. split; [reflexivity|].
  split; [|done]. unfold snapshot. simpl. by rewrite (right_id_L ∅ (∪)).
Qed.

(** X10.  [setGlobalState(null)] and [setGlobalState(undefined)] are accepted
    and change nothing: after the host has worked off the queue the Provider
    is as it was, whatever its state. *)
Theorem update_nullish_is_noop body n fuel (i : instance) log :
  updateQueue i = [] →
  (∃ w1, call body (S n) VSetState [VNull] (World i log) = (Ok VUndefined, w1) ∧
         flush body fuel w1 = (Ok tt, World i (log ++ [(VSetState, [VNull])]))) ∧
  (∃ w1, call body (S n) VSetState [VUndefined] (World i log) = (Ok VUndefined, w1) ∧
         flush body fuel w1 = (Ok tt, World i (log ++ [(VSetState, [VUndefined])]))).
Proof.
  destruct i as [ps s q]. simpl. intros ->.
  split; eexists; (split; [reflexivity|reflexivity]).
Qed.

(** X10, on the sample application. *)
Lemma update_nullish_is_noop_witness :
  updateQueue Sample.provider = [] ∧
  ∃ w1, call Sample.body 1 VSetState [VNull] (World Sample.provider [])
          = (Ok VUndefined, w1) ∧
        flush Sample.body 1 w1
          = (Ok tt, World Sample.provider ([] ++ [(VSetState, [VNull])])).
Proof.
  split; [reflexivity|].
  destruct (update_nullish_is_noop Sample.body 0 1 Sample.provider [] eq_refl)
    as [H _]. exact H.
Defined.

(** X11.  Code reaches the Provider through the bound [setState] only: a
    call, of whatever function, during which the bound [setState] is not
    called leaves the Provider as it was, state, props and queue. *)
Theorem call_without_setState body fuel f args w r w' l :
  call body fuel f args w = (r, w') →
  calls w' = calls w ++ l →
  (∀ xs, (VSetState, xs) ∉ l) →
  this w' = this w.
Proof.
  intros Hcall Hlog Hquiet.
  apply call_evolves in Hcall as (Hs & Hp & l' & q & Hl & Hq & Hj).
  assert (l' = l) as -> by (rewrite Hl in Hlog; by apply app_inv_head in Hlog).
  assert (q = []) as ->.
  { destruct q as [|u q]; [done|]. destruct Hj as [xs Hin]; [done|].
    by destruct (Hquiet xs). }
  rewrite app_nil_r in Hq.
  destruct (this w'), (this w). simpl in *. by subst.
Qed.

(** X11, on the sample application: a bound transmitter whose first stage
    returns [undefined] fails before [setState] is reached, and the Provider
    is untouched. *)
Lemma call_without_setState_witness :
  call Sample.body 2 (VBound (VObj {[ "plain" := VUser 5 [] ]}) "plain" VSetState)
       [VStr "HEADS"] Sample.w0
    = (Fail TypeError,
       World Sample.provider
         (calls Sample.w0 ++
          [(VBound (VObj {[ "plain" := VUser 5 [] ]}) "plain" VSetState, [VStr "HEADS"]);
           (VUser 5 [], [VStr "HEADS"])])) ∧
  this (World Sample.provider
          (calls Sample.w0 ++
           [(VBound (VObj {[ "plain" := VUser 5 [] ]}) "plain" VSetState, [VStr "HEADS"]);
            (VUser 5 [], [VStr "HEADS"])]))
    = this Sample.w0.
Proof.
  split; [vm_compute; reflexivity|].
  eapply (call_without_setState Sample.body 2
            (VBound (VObj {[ "plain" := VUser 5 [] ]}) "plain" VSetState)
            [VStr "HEADS"] Sample.w0 (Fail TypeError) _
            [(VBound (VObj {[ "plain" := VUser 5 [] ]}) "plain" VSetState, [VStr "HEADS"]);
             (VUser 5 [], [VStr "HEADS"])]).
  - vm_compute; reflexivity.
  - reflexivity.
  - intros xs Hin.
    apply elem_of_cons in Hin as [Hin|Hin]; [discriminate Hin|].
    apply list_elem_of_singleton in Hin. discriminate Hin.
Defined.

(** *** Several updates *)

Lemma host_run_app body fuel es1 es2 w :
  host_run body fuel (es1 ++ es2) w
  = (host_run body fuel es1 ;;; host_run body fuel es2) w.
Proof.
  revert w. induction es1 as [|e es1 IH]; intros w; [done|].
  cbn [app host_run]. unfold bind.
  destruct (host_step body fuel e w) as [[[]|err|] w1]; [|done..].
  rewrite IH. reflexivity.
Qed.

(** Object payloads handed to the bound [setState] one after the other line
    up in the queue. *)
Lemma host_run_setState_objects body n (ps : list (gmap string value)) :
  ∀ pr s q log,
    host_run body (S n) ((λ p, Run VSetState [VObj p]) <$> ps)
             (World (Instance pr s q) log)
    = (Ok tt,
       World (Instance pr s (q ++ ((λ p, Update (VObj p) VNull) <$> ps)))
             (log ++ ((λ p, (VSetState, [VObj p])) <$> ps))).
Proof.
  induction ps as [|p ps IH]; intros pr s q log.
  - simpl. by rewrite !app_nil_r.
  - cbn [fmap list_fmap host_run]. unfold bind at 1.
    change (host_step body (S n) (Run VSetState [VObj p]) (World (Instance pr s q) log))
      with (Ok tt, World (Instance pr s (q ++ [Update (VObj p) VNull]))
                         (log ++ [(VSetState, [VObj p])])).
    cbv iota beta. rewrite IH. by rewrite <- !app_assoc.
Qed.

Lemma processUpdateQueue_objects body fuel (ps : list (gmap string value)) :
  ∀ (s pr : gmap string value) w,
    processUpdateQueue body fuel ((λ p, Update (VObj p) VNull) <$> ps) (VObj s) pr w
    = (Ok (VObj (foldl (λ acc p, p ∪ acc) s ps)), w).
Proof.
  induction ps as [|p ps IH]; intros s pr w; [done|].
  cbn [fmap list_fmap processUpdateQueue foldl]. unfold bind at 1.
  change (getStateFromUpdate body fuel (Update (VObj p) VNull) (VObj s) pr w)
    with (Ok (VObj (p ∪ (s ∪ ∅))), w).
  cbv iota beta. rewrite (right_id_L ∅ (∪)). apply IH.
Qed.

Lemma commitUpdateQueue_objects body fuel (ps : list (gmap string value)) w :
  commitUpdateQueue body fuel ((λ p, Update (VObj p) VNull) <$> ps) w = (Ok tt, w).
Proof.
  induction ps as [|p ps IH]; [done|].
  cbn [fmap list_fmap commitUpdateQueue callback]. unfold bind. simpl. apply IH.
Qed.

(** X12.  Object updates are applied in the order of the calls, a later one
    over an earlier one, and the state they lead to does not depend on when
    the host works off the queue: once after all the calls, or after each
    call, the state is the same. *)
Theorem updates_apply_in_call_order body n pr (s : gmap string value)
    (ps : list (gmap string value)) log :
  ∃ w1 w2,
    host_run body (S n) (((λ p, Run VSetState [VObj p]) <$> ps) ++ [Flush])
             (World (Instance pr (VObj s) []) log) = (Ok tt, w1) ∧
    host_run body (S n) (ps ≫= λ p, [Run VSetState [VObj p]; Flush])
             (World (Instance pr (VObj s) []) log) = (Ok tt, w2) ∧
    snapshot w1 = VObj (foldl (λ acc p, p ∪ acc) s ps) ∧
    snapshot w2 = VObj (foldl (λ acc p, p ∪ acc) s ps) ∧
    updateQueue (this w1) = [] ∧
    updateQueue (this w2) = [].
Proof.
  assert (∀ s log,
            host_run body (S n) (ps ≫= λ p, [Run VSetState [VObj p]; Flush])
                     (World (Instance pr (VObj s) []) log)
            = (Ok tt,
               World (Instance pr (VObj (foldl (λ acc p, p ∪ acc) s ps)) [])
                     (log ++ ((λ p, (VSetState, [VObj p])) <$> ps)))) as Hone.
  { clear s log. induction ps as [|p ps IH]; intros s log.
    - simpl. by rewrite app_nil_r.
    - change (host_run body (S n) ((p :: ps) ≫= λ p, [Run VSetState [VObj p]; Flush])
                (World (Instance pr (VObj s) []) log))
        with (host_run body (S n) (ps ≫= λ p, [Run VSetState [VObj p]; Flush])
                (World (Instance pr (VObj (p ∪ (s ∪ ∅))) [])
                       (log ++ [(VSetState, [VObj p])]))).
      rewrite (right_id_L ∅ (∪)), IH. cbn [fmap list_fmap foldl].
      by rewrite <- app_assoc. }
  eexists _, _. split; [|split; [apply Hone|]].
  - rewrite host_run_app. unfold bind. rewrite host_run_setState_objects.
    cbn [host_run host_step app]. unfold bind, flush, bind, get_this, set_this.
    cbn [this props state updateQueue calls].
    rewrite processUpdateQueue_objects, commitUpdateQueue_objects. reflexivity.
  - done.
Qed.

(** On the sample application: two updates of the same key, the later one
    stays. *)
Example two_updates_of_one_key :
  snapshot
    (host_run Sample.body 1
       [Run VSetState [VObj {[ "count" := VNum 1 ]}];
        Run VSetState [VObj {[ "count" := VNum 2; "loggedIn" := VBool true ]}];
        Flush]
       Sample.w0).2
  = VObj {[ "loggedIn" := VBool true;
            "count" := VNum 2;
            "portion" := VObj {[ "foo" := VStr "bar" ]} ]}.
Proof. vm_compute. reflexivity. Qed.

(** X13.  The second argument of [setGlobalState] reaches React as the
    callback of the update: when the host works off the queue, a callback
    that is a function is called, without arguments, once the new state is
    in place. *)
Theorem callback_runs_after_commit body n fuel pr (s p : gmap string value) cb log :
  JS.is_function cb = true →
  ∃ w1,
    call body (S n) VSetState [VObj p; cb] (World (Instance pr (VObj s) []) log)
      = (Ok VUndefined, w1) ∧
    flush body fuel w1
      = (call body fuel cb [] ;;; ret tt)
          (World (Instance pr (VObj (p ∪ s)) [])
                 (log ++ [(VSetState, [VObj p; cb])])).
Proof.
  intros Hcb. eexists. split; [reflexivity|].
  unfold flush, bind, get_this, set_this.
  destruct cb; try discriminate Hcb; simpl;
    rewrite (right_id_L ∅ (∪)); unfold bind;
    by destruct (call _ _ _ _ _) as [[v|e|] w2].
Qed.

(** X13, on the sample application: the callback is itself a call of the
    bound [setState], as in the README; it finds the first update applied
    and leaves a second one in the queue. *)
Lemma callback_runs_after_commit_witness :
  JS.is_function VSetState = true ∧
  ∃ w1,
    call Sample.body 1 VSetState [VObj {[ "count" := VNum 1 ]}; VSetState] Sample.w0
      = (Ok VUndefined, w1) ∧
    flush Sample.body 1 w1
      = (Ok tt,
         World (Instance (props Sample.provider)
                  (VObj ({[ "count" := VNum 1 ]} ∪ Sample.globalState))
                  [Update VUndefined VNull])
               [(VSetState, [VObj {[ "count" := VNum 1 ]}; VSetState]);
                (VSetState, [])]).
Proof.
  split; [reflexivity|].
  destruct (callback_runs_after_commit Sample.body 0 1 (props Sample.provider)
              Sample.globalState {[ "count" := VNum 1 ]} VSetState [] eq_refl)
    as (w1 & Hcall & Hflush).
  exists w1. split; [exact Hcall|]. rewrite Hflush. reflexivity.
Defined.

(** ** From the update to the consumer *)

(** X14.  What [setGlobalState] was given is what the connected consumers
    get: after the update with the object [p], a consumer without selector
    that is evaluated below the Provider builds the element of the wrapped
    component with every key of [p] at [p]'s value, unless an own prop or a
    transmitter has that name; and the component receives that prop, if the
    name is not one React reserves and the value is not [undefined] (for
    which React would take a default the component declares). *)
Theorem update_reaches_consumer body n fuel Component tr own pr
    (s p : gmap string value) log :
  ∃ w1 w2 merged,
    call body (S n) VSetState [VObj p] (World (Instance pr (VObj s) []) log)
      = (Ok VUndefined, w1) ∧
    flush body fuel w1 = (Ok tt, w2) ∧
    connect body fuel Component VUndefined tr own [(Provider_render (this w2)).1] w2
      = (Ok (React.Element Component merged), w2) ∧
    ∀ k v,
      p !! k = Some v →
      own !! k = None →
      JS.own_props (JS.default_param tr (VObj ∅)) !! k = None →
      merged !! k = Some v ∧
      (k ∉ React.RESERVED_PROPS →
       v ≠ VUndefined →
       React.received_props (React.Element Component merged) !! k = Some v).
Proof.
  eexists _, _, _. split; [reflexivity|]. split; [reflexivity|].
  split.
  - rewrite connect_below_provider. by rewrite mappedState_falsy.
  - intros k v Hp Hown Htr.
    assert (∀ m : gmap string value,
              m = own ∪ (_mapTransmittersToProps (JS.default_param tr (VObj ∅)) VSetState
                         ∪ (p ∪ s ∪ {[ "setGlobalState" := VSetState ]})) →
              m !! k = Some v) as Hmerged.
    { intros m ->.
      rewrite !lookup_union_match, Hown, lookup_mapTransmittersToProps, Htr.
      by rewrite Hp. }
    unfold snapshot. simpl. rewrite (right_id_L ∅ (∪)).
    split; [by apply Hmerged|].
    intros Hk _. rewrite lookup_received_props. simpl.
    rewrite decide_False by done. by apply Hmerged.
Qed.

(** X14, on the sample application: after [setGlobalState({loggedIn: true})]
    the wrapped component receives [loggedIn = true]. *)
Lemma update_reaches_consumer_witness :
  ∃ w1 w2 merged,
    call Sample.body 1 VSetState [VObj {[ "loggedIn" := VBool true ]}]
         (World (Instance (props Sample.provider) (VObj Sample.globalState) []) [])
      = (Ok VUndefined, w1) ∧
    flush Sample.body 1 w1 = (Ok tt, w2) ∧
    connect Sample.body 1 (VUser Sample.Game []) VUndefined Sample.transmitters ∅
            [(Provider_render (this w2)).1] w2
      = (Ok (React.Element (VUser Sample.Game []) merged), w2) ∧
    merged !! "loggedIn" = Some (VBool true) ∧
    React.received_props (React.Element (VUser Sample.Game []) merged) !! "loggedIn"
      = Some (VBool true).
Proof.
  destruct (update_reaches_consumer Sample.body 0 1 (VUser Sample.Game [])
              Sample.transmitters ∅ (props Sample.provider) Sample.globalState
              {[ "loggedIn" := VBool true ]} [])
    as (w1 & w2 & merged & Hcall & Hflush & Hconnect & Hkeys).
  exists w1, w2, merged. split; [exact Hcall|]. split; [exact Hflush|].
  split; [exact Hconnect|].
  destruct (Hkeys "loggedIn" (VBool true)) as [Hmerged Hreceived];
    [vm_compute; reflexivity..|].
  split; [exact Hmerged|]. apply Hreceived; [|discriminate].
  unfold React.RESERVED_PROPS. intros Hin.
  repeat (apply elem_of_cons in Hin as [Hin|Hin]; [discriminate Hin|]).
  by apply elem_of_nil in Hin.
Defined.
